(** * AWS auth backend: the [config/client] path

    A shallow embedding of [builtin/credential/aws/path_config_client.go]:
    the handlers that read, create, update and delete the client
    configuration (access key, secret key, endpoint) of the backend, the
    storage they talk to, the lock they take and the cache of EC2 clients
    they flush.

    Go strings are [string] (a sequence of bytes), Go maps are [gmap],
    a Go [(T, error)] result is a [result T], and a handler is a function
    of the state it runs in, returning its result and the new state.  The
    state carries the log of what happened, in order: lock operations,
    storage calls and cache flushes. *)

From Stdlib Require Import String Ascii List Bool Arith Lia.
From stdpp Require Import base option list strings gmap fin_maps.

Local Open Scope string_scope.

(** ** Results and errors *)

(** A Go [error] value, by its message. *)
Definition error := string.

(** The pair [(T, error)] a Go function returns: a value with a nil error,
    or a non-nil error. *)
Inductive result (A : Type) : Type :=
| Ok (a : A)
| Err (e : error).
Arguments Ok {A} a.
Arguments Err {A} e.

(** ** The record *)

(** [type clientConfig struct]: the three strings kept under
    [config/client]. *)
Record clientConfig : Type := mkClientConfig {
  AccessKey : string;
  SecretKey : string;
  Endpoint : string
}.

(** [&clientConfig{}]: the zero value. *)
Definition zeroClientConfig : clientConfig :=
  {| AccessKey := ""; SecretKey := ""; Endpoint := "" |}.

#[global] Instance clientConfig_eq_dec : EqDecision clientConfig.
Proof. solve_decision. Defined.

(** The fields by name, as the struct tags spell them. *)
Inductive field : Type := FAccessKey | FSecretKey | FEndpoint.

#[global] Instance field_eq_dec : EqDecision field.
Proof. solve_decision. Defined.

Definition field_tag (f : field) : string :=
  match f with
  | FAccessKey => "access_key"
  | FSecretKey => "secret_key"
  | FEndpoint => "endpoint"
  end.

Definition field_of (c : clientConfig) (f : field) : string :=
  match f with
  | FAccessKey => AccessKey c
  | FSecretKey => SecretKey c
  | FEndpoint => Endpoint c
  end.

(** ** The codec *)

Module json.

Definition dquote : ascii := ascii_of_nat 34.
Definition backslash : ascii := ascii_of_nat 92.

Definition hex_digit (n : nat) : ascii :=
  if (n <? 10)%nat then ascii_of_nat (48 + n) else ascii_of_nat (87 + n).

Definition hex_value (c : ascii) : option nat :=
  let n := nat_of_ascii c in
  if ((48 <=? n) && (n <=? 57))%nat then Some (n - 48)
  else if ((97 <=? n) && (n <=? 102))%nat then Some (n - 87)
  else if ((65 <=? n) && (n <=? 70))%nat then Some (n - 55)
  else None.

(** One byte of a string, as it stands between the quotes. *)
Definition escape_char (c : ascii) : string :=
  if Ascii.eqb c dquote then String backslash (String dquote "")
  else if Ascii.eqb c backslash then String backslash (String backslash "")
  else if (nat_of_ascii c <? 32)%nat then
    String backslash
      ("u00" ++ String (hex_digit (nat_of_ascii c / 16))
                  (String (hex_digit (nat_of_ascii c mod 16)) ""))
  else String c "".

Fixpoint escape (s : string) : string :=
  match s with
  | EmptyString => ""
  | String c s' => escape_char c ++ escape s'
  end.

Definition quote (s : string) : string :=
  String dquote (escape s ++ String dquote "").

(** Reads the body of a string literal up to its closing quote, and
    returns the string and the input after the quote. *)
Fixpoint unescape (s : string) : option (string * string) :=
  match s with
  | EmptyString => None
  | String c s1 =>
      if Ascii.eqb c dquote then Some ("", s1)
      else if Ascii.eqb c backslash then
        match s1 with
        | EmptyString => None
        | String e s2 =>
            if Ascii.eqb e dquote || Ascii.eqb e backslash then
              '(r, rest) ← unescape s2; Some (String e r, rest)
            else if Ascii.eqb e "u" then
              match s2 with
              | String "0" (String "0" (String h (String l s3))) =>
                  hv ← hex_value h;
                  lv ← hex_value l;
                  '(r, rest) ← unescape s3;
                  Some (String (ascii_of_nat (16 * hv + lv)) r, rest)
              | _ => None
              end
            else None
        end
      else if (nat_of_ascii c <? 32)%nat then None
      else '(r, rest) ← unescape s1; Some (String c r, rest)
  end.

(** Drops the expected text from the front of the input. *)
Fixpoint expect (p s : string) : option string :=
  match p, s with
  | EmptyString, _ => Some s
  | String a p', String b s' => if Ascii.eqb a b then expect p' s' else None
  | String _ _, EmptyString => None
  end.

(** A string literal: the opening quote, then [unescape]. *)
Definition unquote (s : string) : option (string * string) :=
  match s with
  | String c s' => if Ascii.eqb c dquote then unescape s' else None
  | EmptyString => None
  end.

Definition member (f : field) : string :=
  String dquote (field_tag f ++ String dquote ":").

End json.

(** Modelled from the spec: [logical.StorageEntryJSON] and
    [StorageEntry.DecodeJSON] are not in this file; the record is
    "serialized as a structured object with exactly three named string
    fields (access key, secret key, endpoint)".  The object is written with
    the members in the order of the struct, named by their [json] tags. *)
Definition EncodeJSON (c : clientConfig) : string :=
  "{" ++ json.member FAccessKey ++ json.quote (AccessKey c)
  ++ "," ++ json.member FSecretKey ++ json.quote (SecretKey c)
  ++ "," ++ json.member FEndpoint ++ json.quote (Endpoint c)
  ++ "}".

(** Modelled from the spec: the decoder of the codec above; bytes that are
    not such an object give "an explicit decode error". *)
Definition DecodeJSON (bytes : string) : result clientConfig :=
  let parsed :=
    s ← json.expect ("{" ++ json.member FAccessKey) bytes;
    '(a, s) ← json.unquote s;
    s ← json.expect ("," ++ json.member FSecretKey) s;
    '(k, s) ← json.unquote s;
    s ← json.expect ("," ++ json.member FEndpoint) s;
    '(e, s) ← json.unquote s;
    s ← json.expect "}" s;
    if decide (s = "") then Some (mkClientConfig a k e) else None in
  match parsed with
  | Some c => Ok c
  | None => Err "failed to decode JSON"
  end.

(** ** The collaborators: storage, request data, client cache *)

Module logical.

(** The operations the path registers a callback for. *)
Inductive Operation : Type :=
| CreateOperation
| UpdateOperation
| DeleteOperation
| ReadOperation.

#[global] Instance Operation_eq_dec : EqDecision Operation.
Proof. solve_decision. Defined.

Record StorageEntry : Type := mkStorageEntry {
  Key : string;
  Value : string
}.

#[global] Instance StorageEntry_eq_dec : EqDecision StorageEntry.
Proof. solve_decision. Defined.

(** Modelled from the spec: the [logical.Storage] behind a request is
    an interface whose implementations are not in this file; "Get(key) →
    bytes or absent; Put(key, bytes) → success/error; Delete(key) →
    success/error (absent-key deletion is success)", each of which
    "return[s] an error on I/O failure".  The store is a map from keys to
    bytes; an operation whose fault is set fails with that error and
    leaves the map as it was. *)
Record Storage : Type := mkStorage {
  entries : gmap string string;
  get_fault : option error;
  put_fault : option error;
  delete_fault : option error
}.

Definition Get (s : Storage) (k : string) : result (option StorageEntry) :=
  match get_fault s with
  | Some err => Err err
  | None => Ok (mkStorageEntry k <$> entries s !! k)
  end.

Definition Put (s : Storage) (e : StorageEntry) : option error * Storage :=
  match put_fault s with
  | Some err => (Some err, s)
  | None =>
      (None, mkStorage (<[Key e := Value e]> (entries s))
               (get_fault s) (put_fault s) (delete_fault s))
  end.

Definition Delete (s : Storage) (k : string) : option error * Storage :=
  match delete_fault s with
  | Some err => (Some err, s)
  | None =>
      (None, mkStorage (delete k (entries s))
               (get_fault s) (put_fault s) (delete_fault s))
  end.

(** [logical.Response], of which the handlers fill [Data] only. *)
Record Response : Type := mkResponse {
  Data : gmap string string
}.

(** [logical.StorageEntryJSON]: the entry for a key and the encoding of
    a value. *)
Definition StorageEntryJSON (k : string) (v : clientConfig) : StorageEntry :=
  mkStorageEntry k (EncodeJSON v).

End logical.

(** [logical.Request], as far as the handlers look at it.  [req.Storage]
    is a reference to the store, which lives in the state the handlers
    run in. *)
Record Request : Type := mkRequest {
  Operation : logical.Operation
}.

Module framework.

(** [framework.FieldSchema]: every field of the path is a [TypeString]
    with a default. *)
Record FieldSchema : Type := mkFieldSchema {
  Default : string
}.

(** [framework.FieldData]: the raw values of the request. *)
Record FieldData : Type := mkFieldData {
  Raw : gmap string string
}.

End framework.

(** The [Fields] of [pathConfigClient]. *)
Definition Fields : gmap string framework.FieldSchema :=
  {[ "access_key" := framework.mkFieldSchema "";
     "secret_key" := framework.mkFieldSchema "";
     "endpoint" := framework.mkFieldSchema "" ]}.

(** Modelled from the spec: [FieldData.GetOk] is not in this file; the
    request exposes, "per field, 'was this field explicitly supplied' and,
    if so, its string value".  A key outside the schema is never
    supplied. *)
Definition GetOk (data : framework.FieldData) (k : string) : option string :=
  match Fields !! k with
  | Some _ => framework.Raw data !! k
  | None => None
  end.

(** Modelled from the spec: [FieldData.Get] is not in this file; it is the
    supplied value, and "the field's declared default" when none is. *)
Definition Get (data : framework.FieldData) (k : string) : string :=
  match GetOk data k with
  | Some v => v
  | None => from_option framework.Default "" (Fields !! k)
  end.

(** [structs.New(c).Map()]: the record as a map, keyed by the [structs]
    tags. *)
Definition structs_Map (c : clientConfig) : gmap string string :=
  {[ "access_key" := AccessKey c;
     "secret_key" := SecretKey c;
     "endpoint" := Endpoint c ]}.

(** ** The state and what happens in it *)

Inductive event : Type :=
| EvLock
| EvUnlock
| EvRLock
| EvRUnlock
| EvGet (k : string)
| EvPut (e : logical.StorageEntry)
| EvDelete (k : string)
| EvFlush.

#[global] Instance event_eq_dec : EqDecision event.
Proof. solve_decision. Defined.

(** The store of the request, the cache of EC2 clients of the backend (by
    region, each with the configuration it was built from), and the log. *)
Record world : Type := mkWorld {
  storage : logical.Storage;
  EC2ClientsMap : gmap string clientConfig;
  log : list event
}.

(** A computation in the state. *)
Definition M (A : Type) : Type := world → A * world.

#[global] Instance M_ret : MRet M := λ A a w, (a, w).

#[global] Instance M_bind : MBind M :=
  λ A B k m w, let '(a, w') := m w in k a w'.

Definition emit (e : event) : M unit :=
  λ w, (tt, mkWorld (storage w) (EC2ClientsMap w) (log w ++ [e])).

(** Go's [defer]: the deferred call runs when the body has returned, on
    every path, and the body's result is the function's. *)
Definition defer {A} (deferred : M unit) (body : M A) : M A :=
  r ← body; deferred;; mret r.

(** [b.configMutex]. *)
Definition Lock : M unit := emit EvLock.
Definition Unlock : M unit := emit EvUnlock.
Definition RLock : M unit := emit EvRLock.
Definition RUnlock : M unit := emit EvRUnlock.

(** [req.Storage.Get], [.Put] and [.Delete], each logged when it
    returns. *)
Definition Storage_Get (k : string) : M (result (option logical.StorageEntry)) :=
  λ w, (logical.Get (storage w) k,
        mkWorld (storage w) (EC2ClientsMap w) (log w ++ [EvGet k])).

Definition Storage_Put (e : logical.StorageEntry) : M (option error) :=
  λ w, let '(err, s) := logical.Put (storage w) e in
       (err, mkWorld s (EC2ClientsMap w) (log w ++ [EvPut e])).

Definition Storage_Delete (k : string) : M (option error) :=
  λ w, let '(err, s) := logical.Delete (storage w) k in
       (err, mkWorld s (EC2ClientsMap w) (log w ++ [EvDelete k])).

(** Modelled from the spec: [flushCachedEC2Clients] is not in this file;
    it "evicts/destroys all cached client objects so the next use rebuilds
    them from current configuration". *)
Definition flushCachedEC2Clients : M unit :=
  λ w, (tt, mkWorld (storage w) ∅ (log w ++ [EvFlush])).

(** ** The handlers *)

(** [clientConfigEntryInternal]: the version that does no locking. *)
Definition clientConfigEntryInternal : M (result (option clientConfig)) :=
  got ← Storage_Get "config/client";
  match got with
  | Err err => mret (Err err)
  | Ok None => mret (Ok None)
  | Ok (Some entry) =>
      match DecodeJSON (logical.Value entry) with
      | Err err => mret (Err err)
      | Ok result => mret (Ok (Some result))
      end
  end.

(** [clientConfigEntry]: the same under the read lock. *)
Definition clientConfigEntry : M (result (option clientConfig)) :=
  RLock ;;
  defer RUnlock clientConfigEntryInternal.

(** [pathConfigClientExistenceCheck]: true forces an update, false a
    create. *)
Definition pathConfigClientExistenceCheck : M (result bool) :=
  got ← clientConfigEntry;
  match got with
  | Err err => mret (Err err)
  | Ok entry => mret (Ok (bool_decide (entry ≠ None)))
  end.

Definition pathConfigClientRead : M (result (option logical.Response)) :=
  got ← clientConfigEntry;
  match got with
  | Err err => mret (Err err)
  | Ok None => mret (Ok None)
  | Ok (Some clientConfig) =>
      mret (Ok (Some (logical.mkResponse (structs_Map clientConfig))))
  end.

Definition pathConfigClientDelete : M (result (option logical.Response)) :=
  Lock ;;
  defer Unlock (
    err ← Storage_Delete "config/client";
    match err with
    | Some err => mret (Err err)
    | None =>
        flushCachedEC2Clients ;;
        mret (Ok None)
    end).

(** The three blocks of [pathConfigClientCreateUpdate] that settle one
    field each: the entry and [changedCreds] go in and come out. *)
Definition setAccessKey (req : Request) (data : framework.FieldData)
    (st : clientConfig * bool) : clientConfig * bool :=
  let '(configEntry, changedCreds) := st in
  match GetOk data "access_key" with
  | Some accessKeyStr =>
      if decide (AccessKey configEntry ≠ accessKeyStr)
      then (mkClientConfig accessKeyStr (SecretKey configEntry) (Endpoint configEntry), true)
      else (configEntry, changedCreds)
  | None =>
      if decide (Operation req = logical.CreateOperation)
      then (mkClientConfig (Get data "access_key") (SecretKey configEntry) (Endpoint configEntry),
            changedCreds)
      else (configEntry, changedCreds)
  end.

Definition setSecretKey (req : Request) (data : framework.FieldData)
    (st : clientConfig * bool) : clientConfig * bool :=
  let '(configEntry, changedCreds) := st in
  match GetOk data "secret_key" with
  | Some secretKeyStr =>
      if decide (SecretKey configEntry ≠ secretKeyStr)
      then (mkClientConfig (AccessKey configEntry) secretKeyStr (Endpoint configEntry), true)
      else (configEntry, changedCreds)
  | None =>
      if decide (Operation req = logical.CreateOperation)
      then (mkClientConfig (AccessKey configEntry) (Get data "secret_key") (Endpoint configEntry),
            changedCreds)
      else (configEntry, changedCreds)
  end.

Definition setEndpoint (req : Request) (data : framework.FieldData)
    (st : clientConfig * bool) : clientConfig * bool :=
  let '(configEntry, changedCreds) := st in
  match GetOk data "endpoint" with
  | Some endpointStr =>
      if decide (Endpoint configEntry ≠ endpointStr)
      then (mkClientConfig (AccessKey configEntry) (SecretKey configEntry) endpointStr, true)
      else (configEntry, changedCreds)
  | None =>
      if decide (Operation req = logical.CreateOperation)
      then (mkClientConfig (AccessKey configEntry) (SecretKey configEntry) (Get data "endpoint"),
            changedCreds)
      else (configEntry, changedCreds)
  end.

(** The three blocks in the order of the source. *)
Definition applyFields (req : Request) (data : framework.FieldData)
    (st : clientConfig * bool) : clientConfig * bool :=
  setEndpoint req data (setSecretKey req data (setAccessKey req data st)).

Definition pathConfigClientCreateUpdate (req : Request) (data : framework.FieldData)
    : M (result (option logical.Response)) :=
  Lock ;;
  defer Unlock (
    got ← clientConfigEntryInternal;
    match got with
    | Err err => mret (Err err)
    | Ok loaded =>
        let configEntry := default zeroClientConfig loaded in
        let changedCreds := false in
        let '(configEntry, changedCreds) :=
          applyFields req data (configEntry, changedCreds) in
        let entry := logical.StorageEntryJSON "config/client" configEntry in
        (err ← Storage_Put entry;
         match err with
         | Some err => mret (Err err)
         | None =>
             (if changedCreds then flushCachedEC2Clients else mret tt) ;;
             mret (Ok None)
         end)
    end).

(** ** What the statements below speak about *)

(** The bytes kept under [config/client], if any. *)
Definition stored (w : world) : option string :=
  logical.entries (storage w) !! "config/client".

(** What a load of the record gives in a state. *)
Definition load (w : world) : result (option clientConfig) :=
  (clientConfigEntryInternal w).1.

(** The calls of the path. *)
Inductive call : Type :=
| CallRead
| CallUpsert (req : Request) (data : framework.FieldData)
| CallDelete.

Definition run (c : call) : M (result (option logical.Response)) :=
  match c with
  | CallRead => pathConfigClientRead
  | CallUpsert req data => pathConfigClientCreateUpdate req data
  | CallDelete => pathConfigClientDelete
  end.

(** The events of a call: what it appends to the log. *)
Definition events (c : call) (w : world) : list event :=
  drop (length (log w)) (log (run c w).2).

(** The first failure the storage or the decoder raises in the course of a
    call, if one does: a read gets and decodes, an upsert gets, decodes and
    puts, a delete deletes. *)
Definition failure (c : call) (w : world) : option error :=
  let of_load :=
    match logical.get_fault (storage w) with
    | Some err => Some err
    | None =>
        match stored w with
        | Some bytes =>
            match DecodeJSON bytes with
            | Err err => Some err
            | Ok _ => None
            end
        | None => None
        end
    end in
  match c with
  | CallRead => of_load
  | CallUpsert _ _ =>
      match of_load with
      | Some err => Some err
      | None => logical.put_fault (storage w)
      end
  | CallDelete => logical.delete_fault (storage w)
  end.

Definition is_flush (e : event) : bool :=
  match e with EvFlush => true | _ => false end.

Definition is_unlock (e : event) : bool :=
  match e with EvUnlock => true | _ => false end.

Definition is_write (e : event) : bool :=
  match e with EvPut _ | EvDelete _ => true | _ => false end.

(** How often the cache was flushed in a stretch of the log. *)
Definition flushes (evs : list event) : nat :=
  length (List.filter is_flush evs).

(** How often it was flushed while the exclusive lock was held; [held]
    says whether it is at the start of the stretch. *)
Fixpoint flushes_under_lock (held : bool) (evs : list event) : nat :=
  match evs with
  | [] => 0
  | EvLock :: evs' => flushes_under_lock true evs'
  | EvUnlock :: evs' => flushes_under_lock false evs'
  | EvFlush :: evs' =>
      (if held then 1 else 0) + flushes_under_lock held evs'
  | _ :: evs' => flushes_under_lock held evs'
  end.

(** Every [q] event of the stretch has a [p] event before it; [seen] says
    whether one came before the stretch. *)
Fixpoint preceded_by (p q : event → bool) (seen : bool) (evs : list event) : bool :=
  match evs with
  | [] => true
  | e :: evs' =>
      (if q e then seen else true) && preceded_by p q (seen || p e) evs'
  end.

(** Every [p] event of the stretch has a [q] event after it. *)
Fixpoint followed_by (p q : event → bool) (evs : list event) : bool :=
  match evs with
  | [] => true
  | e :: evs' =>
      (if p e then existsb q evs' else true) && followed_by p q evs'
  end.

(** The order of release and flush as the specification has it: a flush
    comes after the release of the exclusive lock, and never while it is
    held. *)
Definition flush_after_release (evs : list event) : bool :=
  preceded_by is_unlock is_flush false evs
  && (flushes_under_lock false evs =? 0)%nat.

(** Step 3 of Upsert in the words of the specification, for one field:
    a supplied value is applied and counts as a change when it differs
    from the current one; a field that is not supplied takes its default
    on a create and stays on an update. *)
Definition merge_field (create : bool) (supplied : option string)
    (dflt current : string) : string * bool :=
  match supplied with
  | Some v => (v, bool_decide (current ≠ v))
  | None => (if create then dflt else current, false)
  end.

Definition merge (create : bool) (data : framework.FieldData)
    (current : clientConfig) : clientConfig * bool :=
  let on f :=
    merge_field create (GetOk data (field_tag f)) "" (field_of current f) in
  (mkClientConfig (on FAccessKey).1 (on FSecretKey).1 (on FEndpoint).1,
   (on FAccessKey).2 || (on FSecretKey).2 || (on FEndpoint).2).

(** The same with the classification of the specification: "a create if
    no record previously existed, else an update". *)
Definition merge_by_state (data : framework.FieldData)
    (loaded : option clientConfig) : clientConfig * bool :=
  merge (bool_decide (loaded = None)) data (default zeroClientConfig loaded).

(** A request that supplies the given fields and nothing else. *)
Definition supplying (l : list (field * string)) : framework.FieldData :=
  framework.mkFieldData (list_to_map (prod_map field_tag id <$> l)).

(** A store without faults that holds the given entries. *)
Definition sound_storage (m : gmap string string) : logical.Storage :=
  logical.mkStorage m None None None.

(** The requests of the end-to-end scenarios. *)
Definition create : Request := mkRequest logical.CreateOperation.
Definition update : Request := mkRequest logical.UpdateOperation.

(** A fresh backend: nothing stored, nothing cached, nothing logged. *)
Definition fresh : world := mkWorld (sound_storage ∅) ∅ [].

(** A backend that holds a record, with a cached client built from it. *)
Definition configured (c : clientConfig) : world :=
  mkWorld (sound_storage {[ "config/client" := EncodeJSON c ]})
    {[ "us-east-1" := c ]} [].

(** ** The rest of the path: callbacks, routing, the mutex, the cache *)

(** What the path registers for an operation. *)
Definition handler : Type :=
  Request → framework.FieldData → M (result (option logical.Response)).

(** The [Callbacks] of [pathConfigClient]: create and update share one
    handler. *)
Definition Callbacks (op : logical.Operation) : option handler :=
  match op with
  | logical.CreateOperation => Some pathConfigClientCreateUpdate
  | logical.UpdateOperation => Some pathConfigClientCreateUpdate
  | logical.DeleteOperation => Some (λ _ _, pathConfigClientDelete)
  | logical.ReadOperation => Some (λ _ _, pathConfigClientRead)
  end.

(** Modelled from the spec: the routing layer is not in this file; it uses
    the existence check "to decide whether an inbound write should be
    treated as create-semantics or update-semantics before reaching
    Upsert", and the source says of the check: "Returning 'true' forces an
    UpdateOperation, CreateOperation otherwise."  A failed check fails the
    request. *)
Definition routeWrite (data : framework.FieldData)
    : M (result (option logical.Response)) :=
  checked ← pathConfigClientExistenceCheck;
  match checked with
  | Err err => mret (Err err)
  | Ok found =>
      let op := if found : bool then logical.UpdateOperation
                else logical.CreateOperation in
      match Callbacks op with
      | Some callback => callback (mkRequest op) data
      | None => mret (Err "unsupported operation")
      end
  end.

(** The state in which the routed handler starts: the check has run. *)
Definition checked_world (w : world) : world :=
  mkWorld (storage w) (EC2ClientsMap w)
    (log w ++ [EvRLock; EvGet "config/client"; EvRUnlock]).

(** What a computation appends to the log. *)
Definition trace_of {A} (m : M A) (w : world) : list event :=
  drop (length (log w)) (log (m w).2).

(** [sync.RWMutex] as one goroutine sees it: free, read-locked by a number
    of holders, or write-locked. *)
Inductive RWMutex : Type :=
| Free
| Shared (others : nat)
| Exclusive.

(** One event under the mutex.  An acquisition that would block for ever,
    a release of a lock that is not held, a storage read outside any lock
    and a storage write outside the write lock have no successor. *)
Definition guarded_step (m : RWMutex) (e : event) : option RWMutex :=
  match e with
  | EvLock => match m with Free => Some Exclusive | _ => None end
  | EvUnlock => match m with Exclusive => Some Free | _ => None end
  | EvRLock =>
      match m with
      | Free => Some (Shared 0)
      | Shared n => Some (Shared (S n))
      | Exclusive => None
      end
  | EvRUnlock =>
      match m with
      | Shared 0 => Some Free
      | Shared (S n) => Some (Shared n)
      | _ => None
      end
  | EvGet _ => match m with Free => None | _ => Some m end
  | EvPut _ | EvDelete _ => match m with Exclusive => Some m | _ => None end
  | EvFlush => Some m
  end.

Fixpoint guarded_run (m : RWMutex) (evs : list event) : option RWMutex :=
  match evs with
  | [] => Some m
  | e :: evs' =>
      match guarded_step m e with
      | Some m' => guarded_run m' evs'
      | None => None
      end
  end.

(** The record the stored bytes hold, if there are bytes and they
    decode. *)
Definition held (w : world) : option clientConfig :=
  match stored w with
  | Some bytes =>
      match DecodeJSON bytes with
      | Ok c => Some c
      | Err _ => None
      end
  | None => None
  end.

(** Every cached client was built from the record that is stored now. *)
Definition coherent (w : world) : Prop :=
  map_Forall (λ _ c, held w = Some c) (EC2ClientsMap w).

(** The data of two requests in one: what the later one supplies, and what
    the earlier one supplies besides. *)
Definition overlay (later earlier : framework.FieldData) : framework.FieldData :=
  framework.mkFieldData (framework.Raw later ∪ framework.Raw earlier).

(** ** The codec round-trips *)

Lemma append_cons (x : ascii) (a b : string) :
  String x a ++ b = String x (a ++ b).
Proof. reflexivity. Qed.

Lemma append_assoc (a b c : string) : (a ++ b) ++ c = a ++ (b ++ c).
Proof.
  induction a as [|x a IH]; [reflexivity |].
  now rewrite !append_cons, IH.
Qed.

Lemma expect_append (p s : string) : json.expect p (p ++ s) = Some s.
Proof.
  induction p as [|a p IH]; [now destruct s |].
  rewrite append_cons. cbn [json.expect]. now rewrite Ascii.eqb_refl.
Qed.

Lemma unescape_escape_char (c : ascii) (t : string) :
  json.unescape (json.escape_char c ++ t)
  = '(r, rest) ← json.unescape t; Some (String c r, rest).
Proof.
  destruct c as [[] [] [] [] [] [] [] []]; reflexivity.
Qed.

Lemma unescape_escape (s rest : string) :
  json.unescape (json.escape s ++ String json.dquote rest) = Some (s, rest).
Proof.
  induction s as [|c s IH]; [reflexivity |].
  cbn [json.escape]. rewrite append_assoc, unescape_escape_char, IH.
  reflexivity.
Qed.

Lemma unquote_quote (s rest : string) :
  json.unquote (json.quote s ++ rest) = Some (s, rest).
Proof.
  unfold json.quote. rewrite append_cons. cbn [json.unquote].
  rewrite Ascii.eqb_refl, append_assoc. apply unescape_escape.
Qed.

Lemma decode_encode (r : clientConfig) : DecodeJSON (EncodeJSON r) = Ok r.
Proof.
  destruct r as [a k e]. unfold DecodeJSON, EncodeJSON; cbn [AccessKey SecretKey Endpoint].
  rewrite <- (append_assoc "{"), expect_append. cbn [mbind option_bind].
  rewrite unquote_quote. cbn [mbind option_bind].
  rewrite <- (append_assoc ","), expect_append. cbn [mbind option_bind].
  rewrite unquote_quote. cbn [mbind option_bind].
  rewrite <- (append_assoc ","), expect_append. cbn [mbind option_bind].
  rewrite unquote_quote. cbn [mbind option_bind].
  reflexivity.
Qed.

(** C10: decoding the bytes that encoding a record produced gives the
    record back, whatever its three strings are, empty ones included; so
    does decoding the value of the storage entry made from a record. *)
Theorem DecodeJSON_EncodeJSON (r : clientConfig) :
  DecodeJSON (EncodeJSON r) = Ok r
  ∧ ∀ k, DecodeJSON (logical.Value (logical.StorageEntryJSON k r)) = Ok r.
Proof. split; [| intros k]; apply decode_encode. Qed.

(** ** The request data *)

Lemma GetOk_field (data : framework.FieldData) (f : field) :
  GetOk data (field_tag f) = framework.Raw data !! field_tag f.
Proof. destruct f; reflexivity. Qed.

Lemma Get_default (data : framework.FieldData) (f : field) :
  GetOk data (field_tag f) = None → Get data (field_tag f) = "".
Proof. unfold Get. intros ->. destruct f; reflexivity. Qed.

(** The three blocks of the source, run in order from a cleared
    [changedCreds], are the field-wise merge in which the defaults go by
    the operation of the request. *)
Lemma applyFields_merge (req : Request) (data : framework.FieldData)
    (c : clientConfig) :
  applyFields req data (c, false)
  = merge (bool_decide (Operation req = logical.CreateOperation)) data c.
Proof.
  destruct c as [a k e].
  unfold applyFields, setEndpoint, setSecretKey, setAccessKey, merge, merge_field.
  cbn [field_tag field_of AccessKey SecretKey Endpoint].
  pose proof (Get_default data FAccessKey) as Ha.
  pose proof (Get_default data FSecretKey) as Hk.
  pose proof (Get_default data FEndpoint) as He.
  cbn [field_tag] in Ha, Hk, He.
  destruct (GetOk data "access_key") as [va|];
    destruct (GetOk data "secret_key") as [vk|];
    destruct (GetOk data "endpoint") as [ve|];
    rewrite ?Ha, ?Hk, ?He by reflexivity;
    repeat (case_decide; cbn [fst snd orb AccessKey SecretKey Endpoint] in * );
    repeat case_bool_decide;
    cbn [fst snd orb AccessKey SecretKey Endpoint] in *;
    congruence.
Qed.

(** ** What each handler does, in one equation *)

Ltac step_M :=
  unfold mbind, M_bind, mret, M_ret;
  cbn [storage EC2ClientsMap log fst snd logical.Key logical.Value
       logical.StorageEntryJSON].

Lemma load_eq (w : world) :
  load w =
  match logical.get_fault (storage w) with
  | Some err => Err err
  | None =>
      match stored w with
      | None => Ok None
      | Some bytes =>
          match DecodeJSON bytes with
          | Err err => Err err
          | Ok c => Ok (Some c)
          end
      end
  end.
Proof.
  unfold load, clientConfigEntryInternal, Storage_Get, logical.Get, stored.
  step_M.
  destruct (logical.get_fault (storage w)); [reflexivity |].
  destruct (logical.entries (storage w) !! "config/client") as [bytes|];
    [| reflexivity].
  cbn [fmap option_fmap option_map logical.Value].
  destruct (DecodeJSON bytes); reflexivity.
Qed.

Lemma clientConfigEntryInternal_run (w : world) :
  clientConfigEntryInternal w
  = (load w, mkWorld (storage w) (EC2ClientsMap w) (log w ++ [EvGet "config/client"])).
Proof.
  unfold load, clientConfigEntryInternal, Storage_Get.
  step_M.
  destruct (logical.Get (storage w) "config/client") as [[entry|]|err];
    [| reflexivity | reflexivity].
  destruct (DecodeJSON (logical.Value entry)); reflexivity.
Qed.

Lemma load_storage (s : logical.Storage) c l c' l' :
  load (mkWorld s c l) = load (mkWorld s c' l').
Proof. rewrite !load_eq. reflexivity. Qed.

Lemma clientConfigEntry_run (w : world) :
  clientConfigEntry w
  = (load w,
     mkWorld (storage w) (EC2ClientsMap w)
       (log w ++ [EvRLock; EvGet "config/client"; EvRUnlock])).
Proof.
  destruct w as [s c l].
  unfold clientConfigEntry, defer, RLock, RUnlock, emit.
  step_M.
  rewrite clientConfigEntryInternal_run.
  cbn [storage EC2ClientsMap log].
  rewrite (load_storage s c (l ++ [EvRLock]) c l), <- !app_assoc.
  reflexivity.
Qed.

Lemma pathConfigClientRead_run (w : world) :
  pathConfigClientRead w
  = (match load w with
     | Err err => Err err
     | Ok None => Ok None
     | Ok (Some c) => Ok (Some (logical.mkResponse (structs_Map c)))
     end,
     mkWorld (storage w) (EC2ClientsMap w)
       (log w ++ [EvRLock; EvGet "config/client"; EvRUnlock])).
Proof.
  unfold pathConfigClientRead. step_M.
  rewrite clientConfigEntry_run.
  destruct (load w) as [[c|]|err]; reflexivity.
Qed.

Lemma pathConfigClientDelete_run (w : world) :
  pathConfigClientDelete w
  = match logical.delete_fault (storage w) with
    | Some err =>
        (Err err,
         mkWorld (storage w) (EC2ClientsMap w)
           (log w ++ [EvLock; EvDelete "config/client"; EvUnlock]))
    | None =>
        (Ok None,
         mkWorld
           (logical.mkStorage (delete "config/client" (logical.entries (storage w)))
              (logical.get_fault (storage w)) (logical.put_fault (storage w)) None)
           ∅
           (log w ++ [EvLock; EvDelete "config/client"; EvFlush; EvUnlock]))
    end.
Proof.
  destruct w as [s c l].
  unfold pathConfigClientDelete, defer, Lock, Unlock, emit, Storage_Delete,
    flushCachedEC2Clients, logical.Delete.
  step_M.
  destruct (logical.delete_fault s) eqn:E;
    step_M;
    rewrite <- !app_assoc; reflexivity.
Qed.

Lemma pathConfigClientCreateUpdate_run (req : Request)
    (data : framework.FieldData) (w : world) :
  pathConfigClientCreateUpdate req data w
  = match load w with
    | Err err =>
        (Err err,
         mkWorld (storage w) (EC2ClientsMap w)
           (log w ++ [EvLock; EvGet "config/client"; EvUnlock]))
    | Ok loaded =>
        let m := merge (bool_decide (Operation req = logical.CreateOperation))
                   data (default zeroClientConfig loaded) in
        let entry := logical.StorageEntryJSON "config/client" m.1 in
        match logical.put_fault (storage w) with
        | Some err =>
            (Err err,
             mkWorld (storage w) (EC2ClientsMap w)
               (log w ++ [EvLock; EvGet "config/client"; EvPut entry; EvUnlock]))
        | None =>
            (Ok None,
             mkWorld
               (logical.mkStorage
                  (<["config/client" := EncodeJSON m.1]> (logical.entries (storage w)))
                  (logical.get_fault (storage w)) None
                  (logical.delete_fault (storage w)))
               (if m.2 then ∅ else EC2ClientsMap w)
               (log w ++ [EvLock; EvGet "config/client"; EvPut entry]
                  ++ (if m.2 then [EvFlush] else []) ++ [EvUnlock]))
        end
    end.
Proof.
  destruct w as [s c l].
  unfold pathConfigClientCreateUpdate, defer, Lock, Unlock, emit.
  step_M.
  rewrite clientConfigEntryInternal_run.
  cbn [storage EC2ClientsMap log].
  rewrite (load_storage s c (l ++ [EvLock]) c l).
  destruct (load (mkWorld s c l)) as [loaded|err];
    [| step_M; rewrite <- !app_assoc; reflexivity].
  rewrite applyFields_merge.
  destruct (merge _ data (default zeroClientConfig loaded)) as [m ch].
  unfold Storage_Put, logical.Put, flushCachedEC2Clients.
  step_M.
  destruct (logical.put_fault s) eqn:E;
    step_M;
    [rewrite <- !app_assoc; reflexivity |].
  destruct ch; step_M;
    rewrite <- !app_assoc; reflexivity.
Qed.

(** ** The events of each call *)

Lemma events_of_log (c : call) (w : world) (evs : list event) :
  log (run c w).2 = (log w ++ evs)%list → events c w = evs.
Proof. unfold events. intros ->. apply drop_app_length. Qed.

Lemma events_read (w : world) :
  events CallRead w = [EvRLock; EvGet "config/client"; EvRUnlock].
Proof.
  apply events_of_log. cbn [run]. now rewrite pathConfigClientRead_run.
Qed.

Lemma events_delete (w : world) :
  events CallDelete w
  = ([EvLock; EvDelete "config/client"]
      ++ match logical.delete_fault (storage w) with
         | Some _ => []
         | None => [EvFlush]
         end
      ++ [EvUnlock])%list.
Proof.
  apply events_of_log. cbn [run]. rewrite pathConfigClientDelete_run.
  now destruct (logical.delete_fault (storage w)).
Qed.

Lemma events_upsert (req : Request) (data : framework.FieldData) (w : world) :
  events (CallUpsert req data) w
  = match load w with
    | Err _ => [EvLock; EvGet "config/client"; EvUnlock]
    | Ok loaded =>
        let m := applyFields req data (default zeroClientConfig loaded, false) in
        ([EvLock; EvGet "config/client";
          EvPut (logical.StorageEntryJSON "config/client" m.1)]
           ++ match logical.put_fault (storage w) with
              | Some _ => []
              | None => if m.2 then [EvFlush] else []
              end
           ++ [EvUnlock])%list
    end.
Proof.
  apply events_of_log. cbn [run]. rewrite pathConfigClientCreateUpdate_run.
  destruct (load w) as [loaded|err]; [| reflexivity].
  rewrite applyFields_merge. cbv zeta.
  destruct (logical.put_fault (storage w)); [reflexivity |].
  now destruct (merge _ _ _).2.
Qed.

Lemma load_Ok_get_fault (w : world) (loaded : option clientConfig) :
  load w = Ok loaded → logical.get_fault (storage w) = None.
Proof. rewrite load_eq. now destruct (logical.get_fault (storage w)). Qed.

(** After a put that went through, a load gives the record that was put. *)
Lemma load_after_put (w : world) (c : clientConfig) cache l (pf df : option error) :
  logical.get_fault (storage w) = None →
  load (mkWorld
          (logical.mkStorage
             (<["config/client" := EncodeJSON c]> (logical.entries (storage w)))
             (logical.get_fault (storage w)) pf df) cache l)
  = Ok (Some c).
Proof.
  intros Hg. rewrite load_eq. unfold stored.
  cbn [storage logical.get_fault logical.entries].
  now rewrite Hg, lookup_insert_eq, decode_encode.
Qed.

(** ** Order of write, flush and release *)

(** The order the specification gives fails on the code: on a fresh
    backend, a delete and a first write both flush the cache before the
    deferred unlock has run. *)
Lemma flush_after_release_counterexample :
  flush_after_release (events CallDelete fresh) = false
  ∧ flush_after_release
      (events (CallUpsert create (supplying [(FAccessKey, "A1")])) fresh) = false.
Proof. split; vm_compute; reflexivity. Qed.

(** C1, as the code has it: in every call, each storage write is followed
    by the release of the exclusive lock, each flush of the client cache
    has the storage write before it and the release after it, and so every
    flush runs while the exclusive lock is held. *)
Theorem write_flush_release_order (c : call) (w : world) :
  followed_by is_write is_unlock (events c w) = true
  ∧ preceded_by is_write is_flush false (events c w) = true
  ∧ followed_by is_flush is_unlock (events c w) = true
  ∧ flushes_under_lock false (events c w) = flushes (events c w).
Proof.
  destruct c as [|req data|].
  - rewrite events_read. repeat split.
  - rewrite events_upsert. destruct (load w) as [loaded|err]; [| repeat split].
    cbv zeta. destruct (logical.put_fault (storage w)); [repeat split |].
    destruct (applyFields _ _ _).2; repeat split.
  - rewrite events_delete.
    destruct (logical.delete_fault (storage w)); repeat split.
Qed.

(** ** Create or update: where the defaults come from *)

(** The classification of the specification fails on the code: a request
    with create intent that reaches a backend holding a record clears the
    secret key it did not supply, where an update would have kept it. *)
Lemma merge_by_state_counterexample :
  applyFields create (supplying [(FAccessKey, "A1")])
    (default zeroClientConfig (Some (mkClientConfig "A1" "S1" "")), false)
  ≠ merge_by_state (supplying [(FAccessKey, "A1")])
      (Some (mkClientConfig "A1" "S1" ""))
  ∧ load (pathConfigClientCreateUpdate create (supplying [(FAccessKey, "A1")])
            (configured (mkClientConfig "A1" "S1" ""))).2
    = Ok (Some (mkClientConfig "A1" "" "")).
Proof. split; [vm_compute; discriminate | vm_compute; reflexivity]. Qed.

Lemma merge_zero (b : bool) (data : framework.FieldData) :
  merge b data zeroClientConfig = merge_by_state data None.
Proof.
  unfold merge_by_state, merge, merge_field.
  cbn [default zeroClientConfig field_of AccessKey SecretKey Endpoint].
  destruct b; [reflexivity |].
  destruct (GetOk data (field_tag FAccessKey)),
    (GetOk data (field_tag FSecretKey)),
    (GetOk data (field_tag FEndpoint)); reflexivity.
Qed.

(** An upsert on a state whose record loads and whose put goes through. *)
Lemma upsert_through (req : Request) (data : framework.FieldData)
    (w : world) (loaded : option clientConfig) :
  load w = Ok loaded →
  logical.put_fault (storage w) = None →
  let m := merge (bool_decide (Operation req = logical.CreateOperation)) data
             (default zeroClientConfig loaded) in
  let w' := (pathConfigClientCreateUpdate req data w).2 in
  (pathConfigClientCreateUpdate req data w).1 = Ok None
  ∧ stored w' = Some (EncodeJSON m.1)
  ∧ load w' = Ok (Some m.1)
  ∧ flushes (events (CallUpsert req data) w) = (if m.2 then 1 else 0).
Proof.
  intros Hl Hp m w'. subst w'.
  pose proof (load_Ok_get_fault w loaded Hl) as Hg.
  rewrite events_upsert, pathConfigClientCreateUpdate_run, Hl, Hp.
  rewrite applyFields_merge. cbv zeta. fold m.
  cbn [fst snd]. repeat split.
  - unfold stored. cbn [storage logical.entries]. apply lookup_insert_eq.
  - now apply load_after_put.
  - now destruct m.2.
Qed.

(** C2, as the code has it: an upsert that gets through writes the merge
    of the loaded record with the request in which a field that is not
    supplied takes its default exactly when the operation of the request
    is a create, whether a record was loaded or not, and it flushes
    exactly when that merge changed a supplied field; when no record was
    loaded this is the merge of the specification, whatever the
    operation. *)
Theorem defaults_follow_request_operation (req : Request)
    (data : framework.FieldData) (w : world) (loaded : option clientConfig) :
  load w = Ok loaded →
  logical.put_fault (storage w) = None →
  let m := merge (bool_decide (Operation req = logical.CreateOperation)) data
             (default zeroClientConfig loaded) in
  let w' := (pathConfigClientCreateUpdate req data w).2 in
  applyFields req data (default zeroClientConfig loaded, false) = m
  ∧ (pathConfigClientCreateUpdate req data w).1 = Ok None
  ∧ stored w' = Some (EncodeJSON m.1)
  ∧ load w' = Ok (Some m.1)
  ∧ flushes (events (CallUpsert req data) w) = (if m.2 then 1 else 0)
  ∧ (loaded = None → m = merge_by_state data loaded).
Proof.
  intros Hl Hp m w'.
  split; [apply applyFields_merge |].
  destruct (upsert_through req data w loaded Hl Hp) as (H1 & H2 & H3 & H4).
  repeat split; try assumption.
  intros ->. apply merge_zero.
Qed.

Lemma defaults_follow_request_operation_witness :
  load (configured (mkClientConfig "A1" "S1" ""))
  = Ok (Some (mkClientConfig "A1" "S1" ""))
  ∧ logical.put_fault (storage (configured (mkClientConfig "A1" "S1" ""))) = None
  ∧ stored (pathConfigClientCreateUpdate create (supplying [(FAccessKey, "A1")])
              (configured (mkClientConfig "A1" "S1" ""))).2
    = Some (EncodeJSON (mkClientConfig "A1" "" "")).
Proof.
  split; [reflexivity |]. split; [reflexivity |].
  apply (defaults_follow_request_operation create
           (supplying [(FAccessKey, "A1")])
           (configured (mkClientConfig "A1" "S1" ""))
           (Some (mkClientConfig "A1" "S1" ""))); reflexivity.
Defined.

(** ** The first write *)

(** A first write does not always flush: one that supplies the empty
    string as the access key changes nothing in the zero record. *)
Lemma first_write_flushes_counterexample :
  load fresh = Ok None
  ∧ GetOk (supplying [(FAccessKey, "")]) "access_key" = Some ""
  ∧ flushes (events (CallUpsert create (supplying [(FAccessKey, "")])) fresh) = 0.
Proof. repeat split. Qed.

(** C3, as the code has it: a write to a backend without a record that
    supplies the access key only leaves a record with that access key, an
    empty secret key and an empty endpoint, and flushes the client cache
    once when the access key is not the empty string, and not at all when
    it is. *)
Theorem first_write_access_key_only (req : Request)
    (data : framework.FieldData) (w : world) (a : string) :
  load w = Ok None →
  logical.put_fault (storage w) = None →
  GetOk data "access_key" = Some a →
  GetOk data "secret_key" = None →
  GetOk data "endpoint" = None →
  (pathConfigClientCreateUpdate req data w).1 = Ok None
  ∧ load (pathConfigClientCreateUpdate req data w).2
    = Ok (Some (mkClientConfig a "" ""))
  ∧ flushes (events (CallUpsert req data) w) = (if decide (a = "") then 0 else 1).
Proof.
  intros Hl Hp Ha Hk He.
  destruct (upsert_through req data w None Hl Hp) as (Hr & _ & Hload & Hf).
  change (default zeroClientConfig None) with zeroClientConfig in Hload, Hf.
  rewrite merge_zero in Hload, Hf.
  unfold merge_by_state, merge, merge_field in Hload, Hf.
  cbn [field_tag field_of default zeroClientConfig AccessKey SecretKey Endpoint]
    in Hload, Hf.
  rewrite Ha, Hk, He in Hload, Hf. cbn [fst snd] in Hload, Hf.
  split; [exact Hr |]. split.
  - rewrite Hload. now destruct (bool_decide _).
  - rewrite Hf, !orb_false_r.
    destruct (decide (a = "")) as [->|Hne].
    + now rewrite bool_decide_eq_false_2 by (intros H; now apply H).
    + now rewrite bool_decide_eq_true_2 by congruence.
Qed.

Lemma first_write_access_key_only_witness :
  load fresh = Ok None
  ∧ load (pathConfigClientCreateUpdate create (supplying [(FAccessKey, "A1")]) fresh).2
    = Ok (Some (mkClientConfig "A1" "" ""))
  ∧ flushes (events (CallUpsert create (supplying [(FAccessKey, "A1")])) fresh) = 1.
Proof.
  split; [reflexivity |].
  apply (first_write_access_key_only create (supplying [(FAccessKey, "A1")])
           fresh "A1"); reflexivity.
Defined.

(** ** Create intent on a backend that holds a record *)

(** C4: when a request with the create operation reaches a backend that
    holds a record, the record written has, for each field, the supplied
    value, or the empty default when none was supplied, whatever was
    stored; the cache is flushed only if a supplied value differs from the
    stored one, so the fields cleared by default cause no flush. *)
Theorem create_over_record_defaults (req : Request)
    (data : framework.FieldData) (w : world) (r : clientConfig) :
  Operation req = logical.CreateOperation →
  load w = Ok (Some r) →
  logical.put_fault (storage w) = None →
  ∃ r' changedCreds,
    applyFields req data (r, false) = (r', changedCreds)
    ∧ (pathConfigClientCreateUpdate req data w).1 = Ok None
    ∧ load (pathConfigClientCreateUpdate req data w).2 = Ok (Some r')
    ∧ (∀ f, field_of r' f = default "" (GetOk data (field_tag f)))
    ∧ (changedCreds = true
       ↔ ∃ f v, GetOk data (field_tag f) = Some v ∧ field_of r f ≠ v)
    ∧ flushes (events (CallUpsert req data) w) = (if changedCreds then 1 else 0).
Proof.
  intros Hop Hl Hp.
  destruct (upsert_through req data w (Some r) Hl Hp) as (Hr & _ & Hload & Hf).
  rewrite applyFields_merge.
  rewrite bool_decide_eq_true_2 in * by exact Hop.
  cbn [default] in *.
  set (m := merge true data r) in *.
  exists m.1, m.2. split; [now destruct m |].
  split; [exact Hr |]. split; [exact Hload |].
  split; [| split; [| exact Hf]].
  - intros f. subst m. unfold merge, merge_field. cbn [fst].
    destruct f; cbn [field_of AccessKey SecretKey Endpoint];
      match goal with |- context [GetOk data ?k] => destruct (GetOk data k) end;
      reflexivity.
  - subst m. unfold merge, merge_field. cbn [snd]. rewrite !orb_true_iff. split.
    + intros [[H|H]|H];
        [exists FAccessKey | exists FSecretKey | exists FEndpoint];
        match type of H with context [GetOk data ?k] =>
          destruct (GetOk data k) as [v|] eqn:E end;
        cbn [snd] in H; try discriminate;
        exists v; (split; [reflexivity | now apply bool_decide_eq_true in H]).
    + intros (f & v & E & Hne).
      destruct f; [left; left | left; right | right]; rewrite E; cbn [snd];
        now apply bool_decide_eq_true.
Qed.

Lemma create_over_record_defaults_witness :
  load (configured (mkClientConfig "A1" "S1" "http://custom"))
  = Ok (Some (mkClientConfig "A1" "S1" "http://custom"))
  ∧ ∃ r',
      (pathConfigClientCreateUpdate create (supplying [(FAccessKey, "A1")])
         (configured (mkClientConfig "A1" "S1" "http://custom"))).1 = Ok None
      ∧ load (pathConfigClientCreateUpdate create (supplying [(FAccessKey, "A1")])
                (configured (mkClientConfig "A1" "S1" "http://custom"))).2
        = Ok (Some r')
      ∧ (∀ f, field_of r' f
              = default "" (GetOk (supplying [(FAccessKey, "A1")]) (field_tag f))).
Proof.
  split; [reflexivity |].
  destruct (create_over_record_defaults create (supplying [(FAccessKey, "A1")])
              (configured (mkClientConfig "A1" "S1" "http://custom"))
              (mkClientConfig "A1" "S1" "http://custom")
              eq_refl eq_refl eq_refl) as (r' & ch & _ & H1 & H2 & H3 & _).
  exists r'. repeat split; assumption.
Defined.

(** ** Delete *)

(** C5: whatever the state, when the storage delete goes through the
    delete returns without an error, nothing is left under the key, so the
    backend is without a configuration, and the client cache is flushed
    exactly once, record or no record. *)
Theorem delete_resets (w : world) :
  logical.delete_fault (storage w) = None →
  (pathConfigClientDelete w).1 = Ok None
  ∧ stored (pathConfigClientDelete w).2 = None
  ∧ (logical.get_fault (storage w) = None →
     load (pathConfigClientDelete w).2 = Ok None)
  ∧ EC2ClientsMap (pathConfigClientDelete w).2 = ∅
  ∧ flushes (events CallDelete w) = 1.
Proof.
  intros Hd. rewrite events_delete, pathConfigClientDelete_run, Hd.
  cbn [fst snd]. repeat split.
  - unfold stored. cbn [storage logical.entries]. apply lookup_delete_eq.
  - intros Hg. rewrite load_eq. unfold stored.
    cbn [storage logical.get_fault logical.entries].
    now rewrite Hg, lookup_delete_eq.
Qed.

Lemma delete_resets_witness :
  logical.delete_fault (storage fresh) = None
  ∧ (pathConfigClientDelete fresh).1 = Ok None
  ∧ flushes (events CallDelete fresh) = 1
  ∧ logical.delete_fault (storage (configured (mkClientConfig "A1" "" "http://custom")))
    = None
  ∧ load (pathConfigClientDelete
            (configured (mkClientConfig "A1" "" "http://custom"))).2
    = Ok None.
Proof.
  split; [reflexivity |].
  split; [apply (delete_resets fresh); reflexivity |].
  split; [apply (delete_resets fresh); reflexivity |].
  split; [reflexivity |].
  apply (delete_resets (configured (mkClientConfig "A1" "" "http://custom")));
    reflexivity.
Defined.

(** ** Writing the same values again *)




(** ** Updating one field *)

(** C7: an update of a backend that holds a record, supplying one field
    only and with a value that differs from the stored one, flushes the
    client cache exactly once and leaves a record in which that field has
    the new value and the other two are as they were. *)
Theorem update_one_field (req : Request) (data : framework.FieldData)
    (w : world) (r : clientConfig) (f : field) (v : string) :
  Operation req = logical.UpdateOperation →
  load w = Ok (Some r) →
  logical.put_fault (storage w) = None →
  GetOk data (field_tag f) = Some v →
  (∀ g, g ≠ f → GetOk data (field_tag g) = None) →
  field_of r f ≠ v →
  ∃ r',
    (pathConfigClientCreateUpdate req data w).1 = Ok None
    ∧ load (pathConfigClientCreateUpdate req data w).2 = Ok (Some r')
    ∧ field_of r' f = v
    ∧ (∀ g, g ≠ f → field_of r' g = field_of r g)
    ∧ flushes (events (CallUpsert req data) w) = 1.
Proof.
  intros Hop Hl Hp Hf Hg Hne.
  destruct (upsert_through req data w (Some r) Hl Hp) as (Hr & _ & Hload & Hfl).
  rewrite bool_decide_eq_false_2 in * by (rewrite Hop; discriminate).
  change (default zeroClientConfig (Some r)) with r in *.
  set (m := merge false data r) in *.
  exists m.1. split; [exact Hr |]. split; [exact Hload |].
  subst m. unfold merge, merge_field in *. cbn [fst snd] in *.
  destruct f;
    [ rewrite (Hg FSecretKey), (Hg FEndpoint) in * by discriminate
    | rewrite (Hg FAccessKey), (Hg FEndpoint) in * by discriminate
    | rewrite (Hg FAccessKey), (Hg FSecretKey) in * by discriminate ];
    rewrite Hf in *; cbn [fst snd field_of AccessKey SecretKey Endpoint] in *;
    (split; [reflexivity |]);
    (split; [intros [] Hd; try reflexivity; now destruct Hd |]);
    rewrite Hfl, bool_decide_eq_true_2 by exact Hne; reflexivity.
Qed.

Lemma update_one_field_witness :
  load (configured (mkClientConfig "A1" "" "")) = Ok (Some (mkClientConfig "A1" "" ""))
  ∧ GetOk (supplying [(FEndpoint, "http://custom")]) (field_tag FEndpoint)
    = Some "http://custom"
  ∧ ∃ r',
      load (pathConfigClientCreateUpdate update
              (supplying [(FEndpoint, "http://custom")])
              (configured (mkClientConfig "A1" "" ""))).2 = Ok (Some r')
      ∧ field_of r' FEndpoint = "http://custom"
      ∧ flushes (events (CallUpsert update (supplying [(FEndpoint, "http://custom")]))
                   (configured (mkClientConfig "A1" "" ""))) = 1.
Proof.
  split; [reflexivity |]. split; [reflexivity |].
  destruct (update_one_field update (supplying [(FEndpoint, "http://custom")])
              (configured (mkClientConfig "A1" "" ""))
              (mkClientConfig "A1" "" "") FEndpoint "http://custom")
    as (r' & _ & H1 & H2 & _ & H3).
  - reflexivity.
  - reflexivity.
  - reflexivity.
  - reflexivity.
  - intros [] Hd; try reflexivity. now destruct Hd.
  - discriminate.
  - exists r'. repeat split; assumption.
Defined.

(** ** Failures *)

(** C8: when the storage get, put or delete, or the decoding of the stored
    bytes, fails in the course of a read, an upsert or a delete, the call
    returns that very error, the client cache is not flushed and keeps
    what it held, and the storage is as it was; when none of them fails
    the call returns without an error.  So a flush is seen only in a call
    whose write went through. *)
Theorem failures_propagate (c : call) (w : world) :
  match failure c w with
  | Some err =>
      (run c w).1 = Err err
      ∧ flushes (events c w) = 0
      ∧ EC2ClientsMap (run c w).2 = EC2ClientsMap w
      ∧ storage (run c w).2 = storage w
  | None => ∃ resp, (run c w).1 = Ok resp
  end.
Proof.
  destruct c as [|req data|]; unfold failure; cbn [run].
  - rewrite events_read, pathConfigClientRead_run, load_eq.
    destruct (logical.get_fault (storage w)); [repeat split |].
    destruct (stored w) as [bytes|]; [| eauto].
    destruct (DecodeJSON bytes); [eauto | repeat split].
  - rewrite events_upsert, pathConfigClientCreateUpdate_run, load_eq.
    destruct (logical.get_fault (storage w)); [repeat split |].
    destruct (stored w) as [bytes|].
    + destruct (DecodeJSON bytes); [| repeat split].
      cbv zeta. destruct (logical.put_fault (storage w)); [repeat split | eauto].
    + cbv zeta. destruct (logical.put_fault (storage w)); [repeat split | eauto].
  - rewrite events_delete, pathConfigClientDelete_run.
    destruct (logical.delete_fault (storage w)); [repeat split | eauto].
Qed.

(** ** Read *)


(** ** The existence check *)

(** The check answers whether a record loads, and changes neither the
    storage nor the client cache. *)
Lemma pathConfigClientExistenceCheck_run (w : world) :
  pathConfigClientExistenceCheck w
  = (match load w with
     | Err err => Err err
     | Ok entry => Ok (bool_decide (entry ≠ None))
     end,
     mkWorld (storage w) (EC2ClientsMap w)
       (log w ++ [EvRLock; EvGet "config/client"; EvRUnlock])).
Proof.
  unfold pathConfigClientExistenceCheck. step_M.
  rewrite clientConfigEntry_run.
  destruct (load w) as [entry|err]; reflexivity.
Qed.

(** ** The scenarios of the specification, run *)

Example scenario_A :
  load (pathConfigClientCreateUpdate create (supplying [(FAccessKey, "A1")]) fresh).2
  = Ok (Some (mkClientConfig "A1" "" ""))
  ∧ events (CallUpsert create (supplying [(FAccessKey, "A1")])) fresh
    = [EvLock; EvGet "config/client";
       EvPut (logical.StorageEntryJSON "config/client" (mkClientConfig "A1" "" ""));
       EvFlush; EvUnlock].
Proof. split; vm_compute; reflexivity. Qed.

Example scenario_B :
  load (pathConfigClientCreateUpdate update
          (supplying [(FEndpoint, "http://custom")])
          (configured (mkClientConfig "A1" "" ""))).2
  = Ok (Some (mkClientConfig "A1" "" "http://custom"))
  ∧ flushes (events (CallUpsert update (supplying [(FEndpoint, "http://custom")]))
               (configured (mkClientConfig "A1" "" ""))) = 1
  ∧ EC2ClientsMap (pathConfigClientCreateUpdate update
                     (supplying [(FEndpoint, "http://custom")])
                     (configured (mkClientConfig "A1" "" ""))).2 = ∅.
Proof. repeat split; vm_compute; reflexivity. Qed.

Example scenario_C :
  load (pathConfigClientCreateUpdate update (supplying [(FAccessKey, "A1")])
          (configured (mkClientConfig "A1" "" "http://custom"))).2
  = Ok (Some (mkClientConfig "A1" "" "http://custom"))
  ∧ events (CallUpsert update (supplying [(FAccessKey, "A1")]))
      (configured (mkClientConfig "A1" "" "http://custom"))
    = [EvLock; EvGet "config/client";
       EvPut (logical.StorageEntryJSON "config/client"
                (mkClientConfig "A1" "" "http://custom"));
       EvUnlock]
  ∧ EC2ClientsMap (pathConfigClientCreateUpdate update
                     (supplying [(FAccessKey, "A1")])
                     (configured (mkClientConfig "A1" "" "http://custom"))).2
    = {[ "us-east-1" := mkClientConfig "A1" "" "http://custom" ]}.
Proof. repeat split; vm_compute; reflexivity. Qed.

Example scenario_D :
  events CallDelete (configured (mkClientConfig "A1" "" "http://custom"))
  = [EvLock; EvDelete "config/client"; EvFlush; EvUnlock]
  ∧ (pathConfigClientRead
       (pathConfigClientDelete
          (configured (mkClientConfig "A1" "" "http://custom"))).2).1
    = Ok None.
Proof. split; vm_compute; reflexivity. Qed.

(** A put that fails, and bytes that do not decode. *)
Example put_fails :
  (pathConfigClientCreateUpdate create (supplying [(FAccessKey, "A1")])
     (mkWorld (logical.mkStorage ∅ None (Some "put failed") None) ∅ [])).1
  = Err "put failed"
  ∧ events (CallUpsert create (supplying [(FAccessKey, "A1")]))
      (mkWorld (logical.mkStorage ∅ None (Some "put failed") None) ∅ [])
    = [EvLock; EvGet "config/client";
       EvPut (logical.StorageEntryJSON "config/client" (mkClientConfig "A1" "" ""));
       EvUnlock].
Proof. split; vm_compute; reflexivity. Qed.

Example corrupt_record :
  (pathConfigClientRead
     (mkWorld (sound_storage {[ "config/client" := "{not json" ]}) ∅ [])).1
  = Err "failed to decode JSON"
  ∧ (pathConfigClientCreateUpdate update (supplying [(FAccessKey, "A1")])
       (mkWorld (sound_storage {[ "config/client" := "{not json" ]}) ∅ [])).1
    = Err "failed to decode JSON".
Proof. split; vm_compute; reflexivity. Qed.

(** ** Routing a write *)

Lemma trace_of_log {A} (m : M A) (w : world) (evs : list event) :
  log (m w).2 = (log w ++ evs)%list → trace_of m w = evs.
Proof. unfold trace_of. intros ->. apply drop_app_length. Qed.

Lemma trace_of_existence_check (w : world) :
  trace_of pathConfigClientExistenceCheck w
  = [EvRLock; EvGet "config/client"; EvRUnlock].
Proof.
  apply trace_of_log. now rewrite pathConfigClientExistenceCheck_run.
Qed.


Lemma routeWrite_run (data : framework.FieldData) (w : world) :
  routeWrite data w
  = match load w with
    | Err err => (Err err, checked_world w)
    | Ok None => pathConfigClientCreateUpdate create data (checked_world w)
    | Ok (Some _) => pathConfigClientCreateUpdate update data (checked_world w)
    end.
Proof.
  unfold routeWrite. step_M. rewrite pathConfigClientExistenceCheck_run.
  destruct (load w) as [[r|]|err]; reflexivity.
Qed.

Lemma trace_of_routeWrite (data : framework.FieldData) (w : world) :
  trace_of (routeWrite data) w
  = ([EvRLock; EvGet "config/client"; EvRUnlock]
     ++ match load w with
        | Err _ => []
        | Ok None => events (CallUpsert create data) (checked_world w)
        | Ok (Some _) => events (CallUpsert update data) (checked_world w)
        end)%list.
Proof.
  apply trace_of_log. rewrite routeWrite_run.
  assert (Hev : ∀ req, log (pathConfigClientCreateUpdate req data (checked_world w)).2
                 = (log (checked_world w)
                      ++ events (CallUpsert req data) (checked_world w))%list).
  { intros req. rewrite events_upsert, pathConfigClientCreateUpdate_run.
    destruct (load (checked_world w)) as [loaded|err]; [| reflexivity].
    rewrite applyFields_merge. cbv zeta.
    destruct (logical.put_fault (storage (checked_world w))); reflexivity. }
  destruct (load w) as [[r|]|err].
  - rewrite Hev. cbn [checked_world log]. now rewrite <- app_assoc.
  - rewrite Hev. cbn [checked_world log]. now rewrite <- app_assoc.
  - cbn [snd checked_world log]. now rewrite app_nil_r.
Qed.

(** ** The mutex *)

(** X1: started on a free mutex, every read, upsert and delete, the
    existence check and a routed write take and release the lock in a way
    the mutex allows, touch the storage only while they hold it, write to
    it only under the write lock, and leave the mutex free, on the paths
    that fail as on those that succeed. *)
Theorem lock_discipline (c : call) (data : framework.FieldData) (w : world) :
  guarded_run Free (events c w) = Some Free
  ∧ guarded_run Free (trace_of pathConfigClientExistenceCheck w) = Some Free
  ∧ guarded_run Free (trace_of (routeWrite data) w) = Some Free.
Proof.
  assert (Hup : ∀ req w', guarded_run Free (events (CallUpsert req data) w') = Some Free).
  { intros req w'. rewrite events_upsert.
    destruct (load w') as [loaded|err]; [| reflexivity].
    cbv zeta. destruct (logical.put_fault (storage w')); [reflexivity |].
    now destruct (applyFields _ _ _).2. }
  split; [| split].
  - destruct c as [|req data'|].
    + now rewrite events_read.
    + rewrite events_upsert.
      destruct (load w) as [loaded|err]; [| reflexivity].
      cbv zeta. destruct (logical.put_fault (storage w)); [reflexivity |].
      now destruct (applyFields _ _ _).2.
    + rewrite events_delete. now destruct (logical.delete_fault (storage w)).
  - now rewrite trace_of_existence_check.
  - rewrite trace_of_routeWrite. cbn [app guarded_run guarded_step].
    destruct (load w) as [[r|]|err]; [apply Hup | apply Hup | reflexivity].
Qed.

(** ** Other keys *)

(** X2: no call of the path changes what the storage holds under another
    key than [config/client], nor which of its operations fail. *)
Theorem other_keys_untouched (c : call) (w : world) (k : string) :
  k ≠ "config/client" →
  logical.entries (storage (run c w).2) !! k = logical.entries (storage w) !! k
  ∧ logical.get_fault (storage (run c w).2) = logical.get_fault (storage w)
  ∧ logical.put_fault (storage (run c w).2) = logical.put_fault (storage w)
  ∧ logical.delete_fault (storage (run c w).2) = logical.delete_fault (storage w).
Proof.
  intros Hk. destruct c as [|req data|]; cbn [run].
  - now rewrite pathConfigClientRead_run.
  - rewrite pathConfigClientCreateUpdate_run.
    destruct (load w) as [loaded|err]; [| now split].
    cbv zeta. destruct (logical.put_fault (storage w)) eqn:Hp; [now split |].
    cbn [snd storage logical.entries logical.get_fault logical.put_fault
         logical.delete_fault].
    split; [now apply lookup_insert_ne | now split].
  - rewrite pathConfigClientDelete_run.
    destruct (logical.delete_fault (storage w)) eqn:Hd; [now split |].
    cbn [snd storage logical.entries logical.get_fault logical.put_fault
         logical.delete_fault].
    split; [now apply lookup_delete_ne | now split].
Qed.

Lemma other_keys_untouched_witness :
  "config/certs" ≠ "config/client"
  ∧ logical.entries
      (storage (run CallDelete
                  (mkWorld (sound_storage {[ "config/certs" := "pem";
                                             "config/client" := "{}" ]}) ∅ [])).2)
      !! "config/certs"
    = Some "pem".
Proof.
  split; [discriminate |].
  refine (eq_trans (proj1 (other_keys_untouched CallDelete
            (mkWorld (sound_storage {[ "config/certs" := "pem";
                                       "config/client" := "{}" ]}) ∅ [])
            "config/certs" _)) _); [discriminate | reflexivity].
Defined.

(** ** The existence check *)

(** X3: the existence check answers true exactly when a read returns a
    response, false exactly when a read returns none, and fails with the
    error a read fails with; like a read it takes the read lock only and
    leaves storage and client cache as they were. *)
Theorem existence_check_agrees_with_read (w : world) :
  (pathConfigClientExistenceCheck w).1
  = match (pathConfigClientRead w).1 with
    | Ok (Some _) => Ok true
    | Ok None => Ok false
    | Err err => Err err
    end
  ∧ (pathConfigClientExistenceCheck w).2 = (pathConfigClientRead w).2
  ∧ storage (pathConfigClientExistenceCheck w).2 = storage w
  ∧ EC2ClientsMap (pathConfigClientExistenceCheck w).2 = EC2ClientsMap w.
Proof.
  rewrite pathConfigClientExistenceCheck_run, pathConfigClientRead_run.
  cbn [fst snd storage EC2ClientsMap].
  destruct (load w) as [[r|]|err]; repeat split.
Qed.

(** ** The merge, field by field *)

Lemma merge_supplied (b : bool) (data : framework.FieldData) (c : clientConfig)
    (f : field) (v : string) :
  GetOk data (field_tag f) = Some v → field_of (merge b data c).1 f = v.
Proof.
  intros E. unfold merge, merge_field. cbn [fst].
  destruct f; cbn [field_of AccessKey SecretKey Endpoint]; now rewrite E.
Qed.

Lemma merge_unsupplied (b : bool) (data : framework.FieldData) (c : clientConfig)
    (f : field) :
  GetOk data (field_tag f) = None →
  field_of (merge b data c).1 f = if b then "" else field_of c f.
Proof.
  intros E. unfold merge, merge_field. cbn [fst].
  destruct f; cbn [field_of AccessKey SecretKey Endpoint]; now rewrite E.
Qed.

Lemma merge_changed (b : bool) (data : framework.FieldData) (c : clientConfig) :
  (merge b data c).2 = true
  ↔ ∃ f v, GetOk data (field_tag f) = Some v ∧ field_of c f ≠ v.
Proof.
  unfold merge, merge_field. cbn [snd]. rewrite !orb_true_iff. split.
  - intros [[H|H]|H];
      [exists FAccessKey | exists FSecretKey | exists FEndpoint];
      match type of H with context [GetOk data ?k] =>
        destruct (GetOk data k) as [v|] eqn:E end;
      cbn [snd] in H; try discriminate;
      exists v; (split; [reflexivity | now apply bool_decide_eq_true in H]).
  - intros (f & v & E & Hne).
    destruct f; [left; left | left; right | right]; rewrite E; cbn [snd];
      now apply bool_decide_eq_true.
Qed.

Lemma field_of_ext (c c' : clientConfig) :
  (∀ f, field_of c f = field_of c' f) → c = c'.
Proof.
  intros H. destruct c as [a k e], c' as [a' k' e'].
  pose proof (H FAccessKey). pose proof (H FSecretKey). pose proof (H FEndpoint).
  cbn [field_of AccessKey SecretKey Endpoint] in *. congruence.
Qed.

(** An update that sets no [changedCreds] leaves the record as it was. *)
Lemma merge_unchanged (data : framework.FieldData) (c : clientConfig) :
  (merge false data c).2 = false → (merge false data c).1 = c.
Proof.
  intros H. apply field_of_ext. intros f.
  destruct (GetOk data (field_tag f)) as [v|] eqn:E.
  - rewrite (merge_supplied _ _ _ _ _ E).
    destruct (decide (field_of c f = v)) as [|Hne]; [congruence |].
    assert ((merge false data c).2 = true) by (apply merge_changed; eauto).
    congruence.
  - now rewrite (merge_unsupplied _ _ _ _ E).
Qed.

Lemma structs_Map_lookup (c : clientConfig) (f : field) :
  structs_Map c !! field_tag f = Some (field_of c f).
Proof.
  destruct f; unfold structs_Map; cbn [field_tag field_of]; by simplify_map_eq.
Qed.

(** What an upsert that gets through does to the client cache and to the
    faults of the storage. *)
Lemma upsert_cache (req : Request) (data : framework.FieldData)
    (w : world) (loaded : option clientConfig) :
  load w = Ok loaded →
  logical.put_fault (storage w) = None →
  EC2ClientsMap (pathConfigClientCreateUpdate req data w).2
  = (if (merge (bool_decide (Operation req = logical.CreateOperation)) data
           (default zeroClientConfig loaded)).2
     then ∅ else EC2ClientsMap w)
  ∧ logical.put_fault (storage (pathConfigClientCreateUpdate req data w).2) = None
  ∧ logical.delete_fault (storage (pathConfigClientCreateUpdate req data w).2)
    = logical.delete_fault (storage w).
Proof.
  intros Hl Hp. rewrite pathConfigClientCreateUpdate_run, Hl, Hp. now split.
Qed.

(** ** After a write *)

(** X4: after an upsert that got through, of either operation and from any
    state, the existence check answers true and a read returns a response
    that holds, under the name of each field the request supplied, the
    value it supplied. *)
Theorem read_your_writes (req : Request) (data : framework.FieldData)
    (w : world) (loaded : option clientConfig) :
  load w = Ok loaded →
  logical.put_fault (storage w) = None →
  (pathConfigClientExistenceCheck (pathConfigClientCreateUpdate req data w).2).1
  = Ok true
  ∧ ∃ resp,
      (pathConfigClientRead (pathConfigClientCreateUpdate req data w).2).1
      = Ok (Some resp)
      ∧ ∀ f v, GetOk data (field_tag f) = Some v →
               logical.Data resp !! field_tag f = Some v.
Proof.
  intros Hl Hp.
  destruct (upsert_through req data w loaded Hl Hp) as (_ & _ & Hload & _).
  rewrite pathConfigClientExistenceCheck_run, pathConfigClientRead_run, Hload.
  cbn [fst]. split; [reflexivity |].
  eexists. split; [reflexivity |].
  intros f v E. cbn [logical.Data].
  now rewrite structs_Map_lookup, (merge_supplied _ _ _ _ _ E).
Qed.

Lemma read_your_writes_witness :
  load fresh = Ok None
  ∧ (pathConfigClientExistenceCheck
       (pathConfigClientCreateUpdate create
          (supplying [(FSecretKey, "S1")]) fresh).2).1 = Ok true.
Proof.
  split; [reflexivity |].
  apply (read_your_writes create (supplying [(FSecretKey, "S1")]) fresh None);
    reflexivity.
Defined.

(** X5: an upsert that gets through leaves a record in which every
    supplied field has the supplied value and, unless the operation is a
    create, every other field has the value that was loaded (the empty
    string when no record was); it flushes the client cache at most once,
    and exactly when a supplied value differs from the loaded one; the
    cache is emptied in that case and kept as it was otherwise. *)
Theorem upsert_merges (req : Request) (data : framework.FieldData)
    (w : world) (loaded : option clientConfig) :
  load w = Ok loaded →
  logical.put_fault (storage w) = None →
  ∃ r',
    load (pathConfigClientCreateUpdate req data w).2 = Ok (Some r')
    ∧ (∀ f v, GetOk data (field_tag f) = Some v → field_of r' f = v)
    ∧ (Operation req ≠ logical.CreateOperation →
       ∀ f, GetOk data (field_tag f) = None →
            field_of r' f = field_of (default zeroClientConfig loaded) f)
    ∧ (flushes (events (CallUpsert req data) w) ≤ 1)%nat
    ∧ (flushes (events (CallUpsert req data) w) = 1
       ↔ ∃ f v, GetOk data (field_tag f) = Some v
                ∧ field_of (default zeroClientConfig loaded) f ≠ v)
    ∧ EC2ClientsMap (pathConfigClientCreateUpdate req data w).2
      = (if decide (flushes (events (CallUpsert req data) w) = 1)
         then ∅ else EC2ClientsMap w).
Proof.
  intros Hl Hp.
  destruct (upsert_through req data w loaded Hl Hp) as (_ & _ & Hload & Hf).
  destruct (upsert_cache req data w loaded Hl Hp) as (Hc & _).
  set (b := bool_decide (Operation req = logical.CreateOperation)) in *.
  set (c := default zeroClientConfig loaded) in *.
  exists (merge b data c).1. split; [exact Hload |].
  split; [intros f v E; now apply merge_supplied |].
  split.
  { intros Hop f E. rewrite (merge_unsupplied _ _ _ _ E). subst b.
    now rewrite bool_decide_eq_false_2. }
  rewrite Hf, Hc. pose proof (merge_changed b data c) as Hch.
  destruct (merge b data c).2.
  - split; [lia |]. split; [split; [intros _; now apply Hch | reflexivity] |].
    now rewrite decide_True.
  - split; [lia |]. split.
    + split; [discriminate |]. intros H. apply Hch in H. discriminate.
    + now rewrite decide_False.
Qed.

Lemma upsert_merges_witness :
  load (configured (mkClientConfig "A1" "S1" ""))
  = Ok (Some (mkClientConfig "A1" "S1" ""))
  ∧ ∃ r',
      load (pathConfigClientCreateUpdate update
              (supplying [(FSecretKey, "S2"); (FEndpoint, "http://custom")])
              (configured (mkClientConfig "A1" "S1" ""))).2 = Ok (Some r')
      ∧ ∀ f v, GetOk (supplying [(FSecretKey, "S2"); (FEndpoint, "http://custom")])
                 (field_tag f) = Some v → field_of r' f = v.
Proof.
  split; [reflexivity |].
  destruct (upsert_merges update
              (supplying [(FSecretKey, "S2"); (FEndpoint, "http://custom")])
              (configured (mkClientConfig "A1" "S1" ""))
              (Some (mkClientConfig "A1" "S1" "")) eq_refl eq_refl)
    as (r' & H1 & H2 & _).
  exists r'. split; assumption.
Defined.

(** X6: an upsert that supplies no field never flushes the client cache
    and keeps it as it was, yet it writes: after an update the stored
    record is the loaded one, or the record of three empty strings when
    none was loaded, and after a create it is the record of three empty
    strings; either way the existence check then answers true. *)
Theorem empty_upsert (req : Request) (data : framework.FieldData)
    (w : world) (loaded : option clientConfig) :
  (∀ f, GetOk data (field_tag f) = None) →
  load w = Ok loaded →
  logical.put_fault (storage w) = None →
  (pathConfigClientCreateUpdate req data w).1 = Ok None
  ∧ EvPut (logical.StorageEntryJSON "config/client"
             (if decide (Operation req = logical.CreateOperation)
              then zeroClientConfig else default zeroClientConfig loaded))
      ∈ events (CallUpsert req data) w
  ∧ flushes (events (CallUpsert req data) w) = 0
  ∧ EC2ClientsMap (pathConfigClientCreateUpdate req data w).2 = EC2ClientsMap w
  ∧ load (pathConfigClientCreateUpdate req data w).2
    = Ok (Some (if decide (Operation req = logical.CreateOperation)
                then zeroClientConfig else default zeroClientConfig loaded))
  ∧ (pathConfigClientExistenceCheck (pathConfigClientCreateUpdate req data w).2).1
    = Ok true.
Proof.
  intros Hno Hl Hp.
  destruct (upsert_through req data w loaded Hl Hp) as (Hr & _ & Hload & Hf).
  destruct (upsert_cache req data w loaded Hl Hp) as (Hc & _).
  assert (Hm : merge (bool_decide (Operation req = logical.CreateOperation)) data
                 (default zeroClientConfig loaded)
               = (if decide (Operation req = logical.CreateOperation)
                  then zeroClientConfig else default zeroClientConfig loaded,
                  false)).
  { unfold merge, merge_field. rewrite !Hno. cbn [fst snd orb].
    destruct (decide (Operation req = logical.CreateOperation)) as [Hop|Hop].
    - now rewrite bool_decide_eq_true_2.
    - rewrite bool_decide_eq_false_2 by assumption.
      now destruct (default zeroClientConfig loaded). }
  rewrite Hm in *. cbn [fst snd] in *.
  split; [exact Hr |]. split.
  { rewrite events_upsert, Hl, applyFields_merge, Hm. cbv zeta. cbn [fst app].
    apply elem_of_cons; right. apply elem_of_cons; right.
    apply elem_of_cons; now left. }
  split; [exact Hf |]. split; [exact Hc |]. split; [exact Hload |].
  now rewrite pathConfigClientExistenceCheck_run, Hload.
Qed.

Lemma empty_upsert_witness :
  load fresh = Ok None
  ∧ load (pathConfigClientCreateUpdate update (supplying []) fresh).2
    = Ok (Some zeroClientConfig).
Proof.
  split; [reflexivity |].
  apply (empty_upsert update (supplying []) fresh None);
    [intros []; reflexivity | reflexivity | reflexivity].
Defined.



(** ** The client cache stays coherent *)

Lemma load_held (w : world) (loaded : option clientConfig) :
  load w = Ok loaded → held w = loaded.
Proof.
  rewrite load_eq. unfold held.
  destruct (logical.get_fault (storage w)); [discriminate |].
  destruct (stored w) as [bytes|]; [| congruence].
  destruct (DecodeJSON bytes); congruence.
Qed.

Lemma coherent_configured (c : clientConfig) : coherent (configured c).
Proof.
  unfold coherent, configured. cbn [EC2ClientsMap].
  apply map_Forall_singleton. unfold held, stored.
  cbn [storage sound_storage logical.entries].
  now rewrite lookup_singleton_eq, decode_encode.
Qed.

Lemma coherent_upsert (req : Request) (data : framework.FieldData) (w : world) :
  coherent w →
  (Operation req = logical.CreateOperation → ∀ r, load w ≠ Ok (Some r)) →
  coherent (pathConfigClientCreateUpdate req data w).2.
Proof.
  intros Hco Hop. destruct (load w) as [loaded|err] eqn:Hl.
  - destruct (logical.put_fault (storage w)) as [err|] eqn:Hp.
    + rewrite pathConfigClientCreateUpdate_run, Hl. cbv zeta. rewrite Hp.
      exact Hco.
    + destruct (upsert_through req data w loaded Hl Hp) as (_ & _ & Hload & _).
      destruct (upsert_cache req data w loaded Hl Hp) as (Hc & _).
      unfold coherent. rewrite Hc.
      set (b := bool_decide (Operation req = logical.CreateOperation)) in *.
      destruct (merge b data (default zeroClientConfig loaded)).2 eqn:Hch;
        [apply map_Forall_empty |].
      intros region c0 Hin. rewrite (load_held _ _ Hload).
      specialize (Hco region c0 Hin). cbn beta in Hco.
      rewrite (load_held _ _ Hl) in Hco. subst loaded.
      change (default zeroClientConfig (Some c0)) with c0 in *.
      assert (b = false) as Hb.
      { subst b. apply bool_decide_eq_false. intros H.
        now apply (Hop H c0). }
      rewrite Hb in *. f_equal. now apply merge_unchanged.
  - rewrite pathConfigClientCreateUpdate_run, Hl. exact Hco.
Qed.

(** X8: if every cached client was built from the stored record, it is
    still so after a read, after a delete, and after an upsert, failed or
    not, unless the upsert has the create operation and finds a record:
    whenever the stored record changes, the cache is emptied. *)
Theorem coherence_kept (c : call) (w : world) :
  coherent w →
  (∀ req data r, c = CallUpsert req data →
     Operation req = logical.CreateOperation → load w ≠ Ok (Some r)) →
  coherent (run c w).2.
Proof.
  intros Hco Hop. destruct c as [|req data|]; cbn [run].
  - rewrite pathConfigClientRead_run. exact Hco.
  - apply coherent_upsert; [exact Hco |].
    intros Hc r. now apply (Hop req data r).
  - rewrite pathConfigClientDelete_run.
    destruct (logical.delete_fault (storage w)); [exact Hco |].
    apply map_Forall_empty.
Qed.

Lemma coherence_kept_witness :
  coherent (configured (mkClientConfig "A1" "S1" ""))
  ∧ coherent (run (CallUpsert update (supplying [(FSecretKey, "S2")]))
                (configured (mkClientConfig "A1" "S1" ""))).2.
Proof.
  split; [apply coherent_configured |].
  apply (coherence_kept (CallUpsert update (supplying [(FSecretKey, "S2")]))
           (configured (mkClientConfig "A1" "S1" "")));
    [apply coherent_configured |].
  intros req data r [= <- <-] H. discriminate H.
Defined.



(** A create that finds a record can leave a cached client that was built
    from a record no longer stored. *)
Example create_over_record_incoherent :
  coherent (configured (mkClientConfig "A1" "S1" ""))
  ∧ ¬ coherent (pathConfigClientCreateUpdate create
                  (supplying [(FAccessKey, "A1")])
                  (configured (mkClientConfig "A1" "S1" ""))).2.
Proof.
  split; [apply coherent_configured |].
  intros H. specialize (H "us-east-1" (mkClientConfig "A1" "S1" "") eq_refl).
  vm_compute in H. discriminate H.
Qed.

(** ** Values supplied over several calls *)

Lemma GetOk_overlay (later earlier : framework.FieldData) (f : field) :
  GetOk (overlay later earlier) (field_tag f)
  = match GetOk later (field_tag f) with
    | Some v => Some v
    | None => GetOk earlier (field_tag f)
    end.
Proof.
  rewrite !GetOk_field. unfold overlay. cbn [framework.Raw].
  rewrite lookup_union.
  destruct (framework.Raw later !! field_tag f),
    (framework.Raw earlier !! field_tag f); reflexivity.
Qed.

Lemma merge_overlay (b : bool) (later earlier : framework.FieldData)
    (c : clientConfig) :
  (merge false later (merge b earlier c).1).1 = (merge b (overlay later earlier) c).1.
Proof.
  apply field_of_ext. intros f.
  destruct (GetOk later (field_tag f)) as [v|] eqn:E.
  - rewrite (merge_supplied _ _ _ _ _ E). symmetry. apply merge_supplied.
    now rewrite GetOk_overlay, E.
  - rewrite (merge_unsupplied _ _ _ _ E).
    destruct (GetOk earlier (field_tag f)) as [v|] eqn:E'.
    + rewrite (merge_supplied _ _ _ _ _ E'). symmetry. apply merge_supplied.
      now rewrite GetOk_overlay, E.
    + rewrite (merge_unsupplied _ _ _ _ E'). symmetry. apply merge_unsupplied.
      now rewrite GetOk_overlay, E.
Qed.

(** X10: the values can be supplied over several calls: an upsert followed
    by an upsert that is not a create leaves the record that one upsert
    with the data of both, the later over the earlier, and the operation
    of the first leaves. *)
Theorem upsert_in_steps (req1 req2 : Request)
    (earlier later : framework.FieldData) (w : world)
    (loaded : option clientConfig) :
  load w = Ok loaded →
  logical.put_fault (storage w) = None →
  Operation req2 ≠ logical.CreateOperation →
  (pathConfigClientCreateUpdate req2 later
     (pathConfigClientCreateUpdate req1 earlier w).2).1 = Ok None
  ∧ load (pathConfigClientCreateUpdate req2 later
            (pathConfigClientCreateUpdate req1 earlier w).2).2
    = load (pathConfigClientCreateUpdate req1 (overlay later earlier) w).2.
Proof.
  intros Hl Hp Hop.
  destruct (upsert_through req1 earlier w loaded Hl Hp) as (_ & _ & Hl1 & _).
  destruct (upsert_cache req1 earlier w loaded Hl Hp) as (_ & Hp1 & _).
  destruct (upsert_through req2 later _ _ Hl1 Hp1) as (Hr & _ & Hl2 & _).
  destruct (upsert_through req1 (overlay later earlier) w loaded Hl Hp)
    as (_ & _ & Hl3 & _).
  split; [exact Hr |].
  rewrite Hl2, Hl3. do 2 f_equal.
  rewrite (bool_decide_eq_false_2 _ Hop).
  apply merge_overlay.
Qed.

Lemma upsert_in_steps_witness :
  load fresh = Ok None
  ∧ load (pathConfigClientCreateUpdate update (supplying [(FSecretKey, "S1")])
            (pathConfigClientCreateUpdate create
               (supplying [(FAccessKey, "A1")]) fresh).2).2
    = load (pathConfigClientCreateUpdate create
              (overlay (supplying [(FSecretKey, "S1")])
                 (supplying [(FAccessKey, "A1")])) fresh).2.
Proof.
  split; [reflexivity |].
  apply (upsert_in_steps create update (supplying [(FAccessKey, "A1")])
           (supplying [(FSecretKey, "S1")]) fresh None);
    [reflexivity | reflexivity | discriminate].
Defined.

(** ** Delete again, and delete what does not decode *)

(** X11: a delete that follows a delete that went through goes through
    too, leaves the storage as it found it, and flushes the client cache
    once more; in between, the existence check answers false and a read
    returns no response, as long as the storage get works. *)
Theorem delete_again (w : world) :
  logical.delete_fault (storage w) = None →
  (pathConfigClientDelete (pathConfigClientDelete w).2).1 = Ok None
  ∧ storage (pathConfigClientDelete (pathConfigClientDelete w).2).2
    = storage (pathConfigClientDelete w).2
  ∧ flushes (events CallDelete (pathConfigClientDelete w).2) = 1
  ∧ (logical.get_fault (storage w) = None →
     (pathConfigClientExistenceCheck (pathConfigClientDelete w).2).1 = Ok false
     ∧ (pathConfigClientRead (pathConfigClientDelete w).2).1 = Ok None).
Proof.
  intros Hd.
  rewrite events_delete, pathConfigClientExistenceCheck_run,
    pathConfigClientRead_run, (pathConfigClientDelete_run (_ w).2).
  rewrite !pathConfigClientDelete_run, Hd.
  cbn [fst snd storage logical.delete_fault logical.entries logical.get_fault
       logical.put_fault].
  split; [reflexivity |]. split; [now rewrite delete_delete_eq |].
  split; [reflexivity |].
  intros Hg. rewrite load_eq. unfold stored.
  cbn [storage logical.get_fault logical.entries].
  rewrite Hg, lookup_delete_eq. now split.
Qed.

Lemma delete_again_witness :
  logical.delete_fault (storage (configured (mkClientConfig "A1" "" ""))) = None
  ∧ (pathConfigClientDelete
       (pathConfigClientDelete (configured (mkClientConfig "A1" "" ""))).2).1
    = Ok None.
Proof.
  split; [reflexivity |].
  exact (proj1 (delete_again (configured (mkClientConfig "A1" "" "")) eq_refl)).
Defined.

(** X12: when the stored bytes do not decode, a read and an upsert fail
    with the decode error, and so would any later one, but a delete does
    not load the record: it goes through, and the upsert after it writes
    the record of a first write. *)
Theorem delete_clears_corrupt_record (req : Request) (data : framework.FieldData)
    (w : world) (bytes : string) (err : error) :
  logical.get_fault (storage w) = None →
  logical.put_fault (storage w) = None →
  logical.delete_fault (storage w) = None →
  stored w = Some bytes →
  DecodeJSON bytes = Err err →
  (pathConfigClientRead w).1 = Err err
  ∧ (pathConfigClientCreateUpdate req data w).1 = Err err
  ∧ stored (pathConfigClientCreateUpdate req data w).2 = Some bytes
  ∧ (pathConfigClientDelete w).1 = Ok None
  ∧ (pathConfigClientCreateUpdate req data (pathConfigClientDelete w).2).1 = Ok None
  ∧ load (pathConfigClientCreateUpdate req data (pathConfigClientDelete w).2).2
    = Ok (Some (merge_by_state data None).1).
Proof.
  intros Hg Hp Hd Hs He.
  assert (Hl : load w = Err err) by now rewrite load_eq, Hg, Hs, He.
  rewrite pathConfigClientRead_run, (pathConfigClientCreateUpdate_run req data w), Hl.
  cbn [fst snd]. split; [reflexivity |]. split; [reflexivity |].
  split; [exact Hs |].
  assert (Hr : (pathConfigClientDelete w).1 = Ok None)
    by now rewrite pathConfigClientDelete_run, Hd.
  split; [exact Hr |].
  assert (Hp' : logical.put_fault (storage (pathConfigClientDelete w).2) = None).
  { now rewrite pathConfigClientDelete_run, Hd. }
  assert (Hl' : load (pathConfigClientDelete w).2 = Ok None).
  { rewrite load_eq, pathConfigClientDelete_run, Hd. unfold stored.
    cbn [snd storage logical.get_fault logical.entries].
    now rewrite Hg, lookup_delete_eq. }
  destruct (upsert_through req data _ None Hl' Hp') as (H1 & _ & H2 & _).
  split; [exact H1 |]. rewrite H2.
  change (default zeroClientConfig None) with zeroClientConfig.
  now rewrite merge_zero.
Qed.

Lemma delete_clears_corrupt_record_witness :
  stored (mkWorld (sound_storage {[ "config/client" := "{not json" ]}) ∅ [])
  = Some "{not json"
  ∧ DecodeJSON "{not json" = Err "failed to decode JSON"
  ∧ (pathConfigClientCreateUpdate update (supplying [(FAccessKey, "A1")])
       (mkWorld (sound_storage {[ "config/client" := "{not json" ]}) ∅ [])).1
    = Err "failed to decode JSON"
  ∧ load (pathConfigClientCreateUpdate update (supplying [(FAccessKey, "A1")])
            (pathConfigClientDelete
               (mkWorld (sound_storage {[ "config/client" := "{not json" ]})
                  ∅ [])).2).2
    = Ok (Some (mkClientConfig "A1" "" "")).
Proof.
  split; [reflexivity |]. split; [reflexivity |].
  destruct (delete_clears_corrupt_record update (supplying [(FAccessKey, "A1")])
              (mkWorld (sound_storage {[ "config/client" := "{not json" ]}) ∅ [])
              "{not json" "failed to decode JSON")
    as (_ & H1 & _ & _ & _ & H2);
    [reflexivity | reflexivity | reflexivity | reflexivity | reflexivity |].
  split; [exact H1 | exact H2].
Defined.
